(** * Dynamic client registration handler: src/server/auth/handlers/register.ts

    A shallow embedding of [clientRegistrationHandler] and of the [register]
    closure it defines, together with the properties of the registration
    transaction: conditional secret issuance, expiry computation, the
    validation short-circuit, the construction-time check on the store and
    the status classification done by the POST route.

    Conventions of the embedding.
    - A JavaScript object is a finite map from property names to values
      ([gmap string jsval]); the object spread followed by named properties
      is a sequence of inserts, the later ones overriding the earlier ones.
    - A property can be an own key whose value is [undefined]
      ([client_secret: undefined]); reading a property ([get_prop]) gives
      [undefined] both for such a key and for a missing key, whereas the
      [in] operator ([has_prop]) only looks at the keys.
    - JavaScript numbers are modelled by [Z]: every number the handler
      computes with is an integer count of seconds or milliseconds, exact
      in the safe-integer range.
    - Of the transport only the outcome of the POST route is kept: the
      status and what is sent. Body parsing, CORS and method routing are
      express's and are left out; the route starts from [req.body].
    - The effects (random identifiers, random bytes, the clock, the external
      store, the console) are threaded through an explicit [World]; a
      computation returns a [Completion] which is either a normal value or
      a thrown one (for the [async] function: a fulfilled or a rejected
      promise). *)

From Stdlib Require Import ZArith String Ascii List.
From Stdlib.Strings Require Import Byte.
From stdpp Require Import base option gmap strings list fin_maps.

#[local] Set Warnings "-register-all".
Set Default Proof Using "Type".

Local Open Scope string_scope.
Local Open Scope Z_scope.

(** ** JavaScript values and objects *)

Inductive jsval : Type :=
| JUndefined
| JNull
| JBool (b : bool)
| JNum (n : Z)
| JStr (s : string)
| JArr (elems : list jsval)
| JObj (props : list (string * jsval)).

Abbreviation jsobj := (gmap string jsval).

(** [o.k]: reading a property; a missing key reads as [undefined]. *)
Definition get_prop (o : jsobj) (k : string) : jsval :=
  match o !! k with
  | Some v => v
  | None => JUndefined
  end.

(** [k in o]: the key is there, whatever its value. *)
Definition has_prop (k : string) (o : jsobj) : bool :=
  match o !! k with
  | Some _ => true
  | None => false
  end.

(** [v !== s] for a string literal [s]: strict inequality never coerces, so
    only the string [s] itself is equal to [s]. *)
Definition strict_neq_string (v : jsval) (s : string) : bool :=
  match v with
  | JStr t => negb (String.eqb t s)
  | _ => true
  end.

(** ** [Buffer.toString('hex')] *)

Definition hex_digit (n : N) : ascii :=
  match n with
  | 0 => "0" | 1 => "1" | 2 => "2" | 3 => "3" | 4 => "4" | 5 => "5"
  | 6 => "6" | 7 => "7" | 8 => "8" | 9 => "9" | 10 => "a" | 11 => "b"
  | 12 => "c" | 13 => "d" | 14 => "e" | _ => "f"
  end%N%char.

Definition byte_to_hex (b : byte) : string :=
  let n := Byte.to_N b in
  String (hex_digit (n / 16)) (String (hex_digit (n mod 16)) EmptyString).

Fixpoint to_hex (bs : list byte) : string :=
  match bs with
  | [] => ""
  | b :: rest => byte_to_hex b +:+ to_hex rest
  end.

(** The four properties the handler issues itself. *)
Definition issued_fields : gset string :=
  {[ "client_id"; "client_secret"; "client_id_issued_at";
     "client_secret_expires_at" ]}.

(** ** Completions *)

Inductive Completion (E A : Type) : Type :=
| Normal (a : A)
| Throw (e : E).
Arguments Normal {E A} a.
Arguments Throw {E A} e.

(** ** HTTP responses produced by the route *)

Inductive Body : Type :=
| JsonBody (o : jsobj)       (* res.json(o) *)
| TextBody (s : string).     (* res.end(s)  *)

Record Response : Type := mkResponse { status : Z; body : Body }.

Definition DEFAULT_CLIENT_SECRET_EXPIRY_SECONDS : Z := 30 * 24 * 60 * 60.

Section Handler.

(** The values that can be thrown, with the three things the handler
    does with them: [String(e)], [new Error(msg)], and the [TypeError]
    the runtime raises when an [undefined] method is called. *)
Context {Thrown : Type}.
Variable js_String : Thrown -> string.
Variable js_Error : string -> Thrown.
Variable js_TypeError : string -> Thrown.

(** [OAuthClientMetadataSchema.parse] (shared/auth.ts): returns the
    normalised metadata or throws. *)
Variable parse : jsval -> Completion Thrown jsobj.

(** The state of the external store. *)
Context {StoreState : Type}.

(** [OAuthRegisteredClientsStore] (server/auth/clients.ts), as far as the
    handler uses it: the optional [registerClient] method, which returns
    the stored record or fails, and may change the store. *)
Record OAuthRegisteredClientsStore : Type := mkStore {
  registerClient :
    option (jsobj -> StoreState -> Completion Thrown jsobj * StoreState)
}.

Record ClientRegistrationHandlerOptions : Type := mkOptions {
  clientsStore : OAuthRegisteredClientsStore;
  clientSecretExpirySeconds : option Z
}.

(** The world a request runs in. [store_calls] is the log of the records
    handed to [registerClient], oldest first. *)
Record World : Type := mkWorld {
  uuid_source : nat -> string;
  uuid_drawn : nat;
  byte_source : nat -> byte;
  bytes_drawn : nat;
  clock_ms : Z;
  store_state : StoreState;
  store_calls : list jsobj;
  console : list (string * Thrown)
}.

Definition Eff (A : Type) : Type := World -> Completion Thrown A * World.

Definition ret {A} (a : A) : Eff A := fun w => (Normal a, w).

Definition throw {A} (e : Thrown) : Eff A := fun w => (Throw e, w).

Definition bind {A B} (m : Eff A) (k : A -> Eff B) : Eff B :=
  fun w =>
    match m w with
    | (Normal a, w') => k a w'
    | (Throw e, w') => (Throw e, w')
    end.

Notation "x <- m ;; k" := (bind m (fun x => k))
  (at level 100, m at next level, right associativity).

(** [crypto.randomUUID()] *)
Definition randomUUID : Eff string :=
  fun w =>
    (Normal (uuid_source w (uuid_drawn w)),
     mkWorld (uuid_source w) (S (uuid_drawn w)) (byte_source w)
             (bytes_drawn w) (clock_ms w) (store_state w) (store_calls w)
             (console w)).

(** [crypto.randomBytes(n)] *)
Definition randomBytes (n : nat) : Eff (list byte) :=
  fun w =>
    (Normal (map (byte_source w) (seq (bytes_drawn w) n)),
     mkWorld (uuid_source w) (uuid_drawn w) (byte_source w)
             (bytes_drawn w + n)%nat (clock_ms w) (store_state w)
             (store_calls w) (console w)).

(** [Date.now()] *)
Definition Date_now : Eff Z := fun w => (Normal (clock_ms w), w).

(** [console.error(msg, e)] *)
Definition console_error (msg : string) (e : Thrown) (w : World) : World :=
  mkWorld (uuid_source w) (uuid_drawn w) (byte_source w) (bytes_drawn w)
          (clock_ms w) (store_state w) (store_calls w)
          (console w ++ [(msg, e)]).

(** [await clientsStore.registerClient!(clientInfo)]: calling a missing
    method raises a [TypeError]; otherwise the store runs on the record. *)
Definition call_registerClient (store : OAuthRegisteredClientsStore)
    (clientInfo : jsobj) : Eff jsobj :=
  match registerClient store with
  | None => throw (js_TypeError "clientsStore.registerClient is not a function")
  | Some f =>
      fun w =>
        let '(r, s') := f clientInfo (store_state w) in
        (r, mkWorld (uuid_source w) (uuid_drawn w) (byte_source w)
                    (bytes_drawn w) (clock_ms w) s'
                    (store_calls w ++ [clientInfo]) (console w))
  end.

(** The object literal of lines 49-55: the metadata spread first, then the
    four issued properties. *)
Definition clientInfo_literal (clientMetadata : jsobj) (clientId : string)
    (clientSecret : jsval) (clientIdIssuedAt expiry : Z) : jsobj :=
  <["client_secret_expires_at" :=
      JNum (if (0 <? expiry)%Z then clientIdIssuedAt + expiry else 0)]>
    (<["client_id_issued_at" := JNum clientIdIssuedAt]>
      (<["client_secret" := clientSecret]>
        (<["client_id" := JStr clientId]> clientMetadata))).

(** Line 44: a secret is generated unless the method is ["none"]. *)
Definition wants_secret (clientMetadata : jsobj) : bool :=
  strict_neq_string (get_prop clientMetadata "token_endpoint_auth_method")
                    "none".

(** The record of lines 43-55 as a closed expression of the world
    [register] starts in: the identifier is the next draw of the identifier
    source, the secret the hexadecimal form of the next 32 random bytes (or
    [undefined]), the issue time the clock in whole seconds.
    [register_valid] below shows that this is the record the run hands to
    the store. *)
Definition secret_in (clientMetadata : jsobj) (w : World) : jsval :=
  if wants_secret clientMetadata
  then JStr (to_hex (map (byte_source w) (seq (bytes_drawn w) 32)))
  else JUndefined.

Definition bytes_used (clientMetadata : jsobj) : nat :=
  if wants_secret clientMetadata then 32%nat else 0%nat.

Definition issued_record (clientMetadata : jsobj) (expiry : Z) (w : World)
    : jsobj :=
  clientInfo_literal clientMetadata (uuid_source w (uuid_drawn w))
                     (secret_in clientMetadata w) (clock_ms w / 1000) expiry.

(** The object returned when validation fails (line 40). *)
Definition registration_error (error : Thrown) : jsobj :=
  <["error_description" := JStr (js_String error)]>
    (<["error" := JStr "invalid_client_metadata"]> ∅).

(** [register], lines 35-59. *)
Definition register (store : OAuthRegisteredClientsStore) (expiry : Z)
    (requestBody : jsval) : Eff jsobj :=
  match parse requestBody with
  | Throw error => ret (registration_error error)
  | Normal clientMetadata =>
      clientId <- randomUUID ;;
      clientSecret <-
        (if strict_neq_string
              (get_prop clientMetadata "token_endpoint_auth_method") "none"
         then (bs <- randomBytes 32 ;; ret (JStr (to_hex bs)))
         else ret JUndefined) ;;
      now <- Date_now ;;
      let clientIdIssuedAt := now / 1000 in
      let clientInfo :=
        clientInfo_literal clientMetadata clientId clientSecret
                           clientIdIssuedAt expiry in
      clientInfo <- call_registerClient store clientInfo ;;
      ret clientInfo
  end.

(** The POST route, lines 62-73: what is sent for one request body. *)
Definition RequestHandler : Type := jsval -> World -> Response * World.

Definition post_route (store : OAuthRegisteredClientsStore) (expiry : Z)
    : RequestHandler :=
  fun req_body w =>
    match register store expiry req_body w with
    | (Normal result, w') =>
        if has_prop "error" result
        then (mkResponse 400 (JsonBody result), w')
        else (mkResponse 201 (JsonBody result), w')
    | (Throw error, w') =>
        (mkResponse 500 (TextBody "Internal Server Error"),
         console_error "Uncaught error in client registration handler:"
                       error w')
    end.

(** [clientRegistrationHandler], lines 23-76. *)
Definition clientRegistrationHandler
    (options : ClientRegistrationHandlerOptions)
    : Completion Thrown RequestHandler :=
  let store := clientsStore options in
  let expiry :=
    match clientSecretExpirySeconds options with
    | Some n => n
    | None => DEFAULT_CLIENT_SECRET_EXPIRY_SECONDS
    end in
  match registerClient store with
  | None =>
      Throw (js_Error
               "Client registration store does not support registering clients")
  | Some _ => Normal (post_route store expiry)
  end.

End Handler.

Arguments OAuthRegisteredClientsStore : clear implicits.
Arguments ClientRegistrationHandlerOptions : clear implicits.
Arguments World : clear implicits.
Arguments RequestHandler : clear implicits.

(** ** Test doubles

    A validator that only insists on an object carrying an array under
    [redirect_uris]; thrown values represented by their text; three stores
    over a list of saved records (one that saves, one that fails, one that
    saves and answers with a record carrying an [error] property) and one
    without [registerClient]; a starting world. *)

Definition demo_String (e : string) : string := e.
Definition demo_Error (msg : string) : string := "Error: " +:+ msg.
Definition demo_TypeError (msg : string) : string := "TypeError: " +:+ msg.

Definition demo_parse (raw : jsval) : Completion string jsobj :=
  match raw with
  | JObj props =>
      let o : jsobj := list_to_map props in
      match o !! "redirect_uris" with
      | Some (JArr _) => Normal o
      | _ => Throw "ZodError: redirect_uris: Required"
      end
  | _ => Throw "ZodError: Expected object"
  end.

Definition save_record (info : jsobj) (saved : list jsobj)
    : Completion string jsobj * list jsobj :=
  (Normal info, (saved ++ [info])%list).

Definition refuse_record (info : jsobj) (saved : list jsobj)
    : Completion string jsobj * list jsobj :=
  (Throw "Error: database unavailable", saved).

Definition tag_record (info : jsobj) (saved : list jsobj)
    : Completion string jsobj * list jsobj :=
  (Normal (<["error" := JNull]> info), (saved ++ [info])%list).

Definition saving_store : OAuthRegisteredClientsStore string (list jsobj) :=
  mkStore (Some save_record).

Definition failing_store : OAuthRegisteredClientsStore string (list jsobj) :=
  mkStore (Some refuse_record).

Definition tagging_store : OAuthRegisteredClientsStore string (list jsobj) :=
  mkStore (Some tag_record).

Definition readonly_store : OAuthRegisteredClientsStore string (list jsobj) :=
  mkStore None.

Definition demo_world : World string (list jsobj) :=
  mkWorld (fun n => "uuid-" +:+ String (ascii_of_nat (97 + n)) "")
          0%nat
          (fun n => match Byte.of_N (N.of_nat n mod 256) with
                    | Some b => b
                    | None => x00
                    end)
          0%nat 1700000000999 [] [] [].

Definition public_request : jsval :=
  JObj [("token_endpoint_auth_method", JStr "none");
        ("redirect_uris", JArr [JStr "https://example.com/cb"])].

Definition confidential_request : jsval :=
  JObj [("token_endpoint_auth_method", JStr "client_secret_post");
        ("redirect_uris", JArr [JStr "https://example.com/cb"]);
        ("client_id", JStr "chosen-by-the-client")].

Definition invalid_request : jsval :=
  JObj [("token_endpoint_auth_method", JStr "none")].

Definition metadata_of (raw : jsval) : jsobj :=
  match demo_parse raw with
  | Normal clientMetadata => clientMetadata
  | Throw _ => ∅
  end.

Definition demo_register :=
  register (StoreState := list jsobj) demo_String demo_TypeError demo_parse.

Definition demo_route :=
  post_route (StoreState := list jsobj) demo_String demo_TypeError demo_parse.

(** ** Requests served one after the other *)

Section Serving.

Context {Thrown : Type}.
Variable parse : jsval -> Completion Thrown jsobj.
Context {StoreState : Type}.

(** Whether [OAuthClientMetadataSchema.parse] accepts a body. *)
Definition validates (raw : jsval) : bool :=
  match parse raw with
  | Normal _ => true
  | Throw _ => false
  end.

(** express calls the route callback once for each POST it receives.
    [serve] runs a handler on the bodies of successive requests, each one
    starting in the world the previous one left, and collects the
    responses in order. *)
Fixpoint serve (handler : RequestHandler Thrown StoreState)
    (bodies : list jsval) (w : World Thrown StoreState)
    : list Response * World Thrown StoreState :=
  match bodies with
  | [] => ([], w)
  | req_body :: rest =>
      let '(response, w1) := handler req_body w in
      let '(responses, w2) := serve handler rest w1 in
      (response :: responses, w2)
  end.

(** How many of the bodies the validator accepts. *)
Definition valid_count (bodies : list jsval) : nat :=
  length (List.filter validates bodies).

End Serving.

(** The [client_id] of each record of a log. *)
Definition client_ids (records : list jsobj) : list jsval :=
  map (fun info => get_prop info "client_id") records.

(** The digits [toString('hex')] writes. *)
Definition is_hex_digit (c : ascii) : bool :=
  existsb (Ascii.eqb c) (list_ascii_of_string "0123456789abcdef").

Definition demo_requests : list jsval :=
  [public_request; invalid_request; confidential_request; public_request].

(** * Properties *)

(** Two hexadecimal digits per byte. *)
Lemma length_to_hex (bs : list byte) :
  String.length (to_hex bs) = (2 * length bs)%nat.
Proof.
  induction bs as [|b rest IH]; [reflexivity|].
  cbn [to_hex length].
  change (byte_to_hex b +:+ to_hex rest)
    with (String (hex_digit (Byte.to_N b / 16))
            (String (hex_digit (Byte.to_N b mod 16)) (to_hex rest))).
  cbn [String.length]. rewrite IH. lia.
Qed.

Lemma strict_neq_string_spec (v : jsval) (s : string) :
  strict_neq_string v s = true ↔ v ≠ JStr s.
Proof.
  destruct v; cbn; try (split; [discriminate | reflexivity]).
  rewrite negb_true_iff, String.eqb_neq. split; congruence.
Qed.

Section Properties.

Context {Thrown : Type}.
Variable js_String : Thrown → string.
Variable js_Error : string → Thrown.
Variable js_TypeError : string → Thrown.
Variable parse : jsval → Completion Thrown jsobj.
Context {StoreState : Type}.

Implicit Types (store : OAuthRegisteredClientsStore Thrown StoreState).
Implicit Types (w : World Thrown StoreState).
Implicit Types (md info : jsobj) (L : Z) (raw : jsval) (e : Thrown).


(** *** What one run of [register] does *)

Lemma register_invalid store L raw w e :
  parse raw = Throw e →
  register js_String js_TypeError parse store L raw w
  = (Normal (registration_error js_String e), w).
Proof. intros Hp. unfold register. rewrite Hp. reflexivity. Qed.

Lemma register_valid store f L raw w md :
  parse raw = Normal md →
  registerClient store = Some f →
  register js_String js_TypeError parse store L raw w =
    (fst (f (issued_record md L w) (store_state w)),
     mkWorld (uuid_source w) (S (uuid_drawn w)) (byte_source w)
             (bytes_drawn w + bytes_used md)%nat (clock_ms w)
             (snd (f (issued_record md L w) (store_state w)))
             (store_calls w ++ [issued_record md L w])%list (console w)).
Proof.
  intros Hp Hf. unfold register. rewrite Hp.
  unfold issued_record, secret_in, bytes_used, wants_secret.
  unfold bind, randomUUID, randomBytes, Date_now, ret, call_registerClient.
  rewrite Hf.
  destruct (strict_neq_string _ _); cbn;
    [|rewrite Nat.add_0_r];
    destruct (f _ _) as [[r|err] s']; reflexivity.
Qed.

Lemma register_valid_calls store f L raw w md :
  parse raw = Normal md →
  registerClient store = Some f →
  store_calls (snd (register js_String js_TypeError parse store L raw w)) =
    (store_calls w ++ [issued_record md L w])%list.
Proof.
  intros Hp Hf. rewrite (register_valid _ f _ _ _ md Hp Hf). reflexivity.
Qed.

(** *** The four issued properties of the record *)

Lemma issued_record_expires md L w :
  issued_record md L w !! "client_secret_expires_at" =
    Some (JNum (if (0 <? L)%Z then clock_ms w / 1000 + L else 0)).
Proof. unfold issued_record, clientInfo_literal. by simplify_map_eq. Qed.

Lemma issued_record_issued_at md L w :
  issued_record md L w !! "client_id_issued_at" =
    Some (JNum (clock_ms w / 1000)).
Proof. unfold issued_record, clientInfo_literal. by simplify_map_eq. Qed.

Lemma issued_record_secret md L w :
  issued_record md L w !! "client_secret" = Some (secret_in md w).
Proof. unfold issued_record, clientInfo_literal. by simplify_map_eq. Qed.

Lemma issued_record_id md L w :
  issued_record md L w !! "client_id" =
    Some (JStr (uuid_source w (uuid_drawn w))).
Proof. unfold issued_record, clientInfo_literal. by simplify_map_eq. Qed.

Lemma get_prop_lookup (o : jsobj) (k : string) (v : jsval) :
  o !! k = Some v → get_prop o k = v.
Proof. unfold get_prop. by intros ->. Qed.

Lemma issued_record_other md L w (k : string) :
  k ≠ "client_id" → k ≠ "client_secret" →
  k ≠ "client_id_issued_at" → k ≠ "client_secret_expires_at" →
  issued_record md L w !! k = md !! k.
Proof.
  intros H1 H2 H3 H4. unfold issued_record, clientInfo_literal.
  by rewrite !lookup_insert_ne.
Qed.

Lemma issued_record_dom md L w :
  dom (issued_record md L w) = dom md ∪ issued_fields.
Proof.
  unfold issued_record, clientInfo_literal, issued_fields.
  rewrite !dom_insert_L. apply set_eq; intros k.
  rewrite !elem_of_union, !elem_of_singleton.
  clear js_String js_Error js_TypeError parse. tauto.
Qed.

Lemma clientInfo_literal_nonpositive md (id : string) (secret : jsval)
    (t L : Z) :
  L ≤ 0 →
  clientInfo_literal md id secret t L = clientInfo_literal md id secret t 0.
Proof.
  intros HL. unfold clientInfo_literal.
  replace (0 <? L)%Z with false by (symmetry; apply Z.ltb_ge; exact HL).
  reflexivity.
Qed.

(** *** The claims *)

(** C1. For validated metadata and any configured lifetime [L], the record
    [register] hands to the store satisfies: when [L > 0],
    [client_secret_expires_at] is [client_id_issued_at + L]; when [L = 0],
    [client_secret_expires_at] is [0], whatever the issue time. *)
Theorem register_secret_expiry store f L raw md w :
  parse raw = Normal md →
  registerClient store = Some f →
  ∃ info issued_at,
    store_calls (snd (register js_String js_TypeError parse store L raw w)) =
      (store_calls w ++ [info])%list
    ∧ get_prop info "client_id_issued_at" = JNum issued_at
    ∧ (0 < L →
       get_prop info "client_secret_expires_at" = JNum (issued_at + L))
    ∧ (L = 0 → get_prop info "client_secret_expires_at" = JNum 0).
Proof.
  intros Hp Hf. exists (issued_record md L w), (clock_ms w / 1000).
  split; [by apply register_valid_calls with f|].
  split; [apply get_prop_lookup, issued_record_issued_at|].
  split; intros HL;
    rewrite (get_prop_lookup _ _ _ (issued_record_expires md L w)).
  - by rewrite (proj2 (Z.ltb_lt 0 L) HL).
  - by subst L.
Qed.

(** C2. For validated metadata, the record [register] hands to the store
    carries a [client_secret] exactly when the metadata's
    [token_endpoint_auth_method] is not the string ["none"]; the secret is
    then a string of 64 hexadecimal digits. *)
Theorem register_secret_presence store f L raw md w :
  parse raw = Normal md →
  registerClient store = Some f →
  ∃ info,
    store_calls (snd (register js_String js_TypeError parse store L raw w)) =
      (store_calls w ++ [info])%list
    ∧ (get_prop info "client_secret" ≠ JUndefined
       ↔ get_prop md "token_endpoint_auth_method" ≠ JStr "none")
    ∧ (get_prop md "token_endpoint_auth_method" ≠ JStr "none" →
       ∃ secret, get_prop info "client_secret" = JStr secret
                 ∧ String.length secret = 64%nat).
Proof.
  intros Hp Hf. exists (issued_record md L w).
  split; [by apply register_valid_calls with f|].
  rewrite (get_prop_lookup _ _ _ (issued_record_secret md L w)).
  unfold secret_in, wants_secret. rewrite <- strict_neq_string_spec.
  destruct (strict_neq_string _ _); split.
  - split; [reflexivity | discriminate].
  - intros _. eexists. split; [reflexivity|].
    rewrite length_to_hex, length_map, length_seq. reflexivity.
  - split; [congruence | discriminate].
  - discriminate.
Qed.

(** C3, as the code has it. For validated metadata whose
    [token_endpoint_auth_method] is ["none"], the record [register] hands
    to the store has no [client_secret]; its [client_secret_expires_at] is
    computed as for any other client: [client_id_issued_at + L] when
    [L > 0] (so [client_id_issued_at + 2592000] under the default
    lifetime) and [0] otherwise. *)
Theorem register_public_client store f L raw md w :
  parse raw = Normal md →
  registerClient store = Some f →
  get_prop md "token_endpoint_auth_method" = JStr "none" →
  ∃ info issued_at,
    store_calls (snd (register js_String js_TypeError parse store L raw w)) =
      (store_calls w ++ [info])%list
    ∧ get_prop info "client_secret" = JUndefined
    ∧ get_prop info "client_id_issued_at" = JNum issued_at
    ∧ get_prop info "client_secret_expires_at" =
        JNum (if (0 <? L)%Z then issued_at + L else 0)
    ∧ (L = DEFAULT_CLIENT_SECRET_EXPIRY_SECONDS →
       get_prop info "client_secret_expires_at" =
         JNum (issued_at + 2592000)).
Proof.
  intros Hp Hf Hnone. exists (issued_record md L w), (clock_ms w / 1000).
  split; [by apply register_valid_calls with f|].
  rewrite (get_prop_lookup _ _ _ (issued_record_secret md L w)).
  rewrite (get_prop_lookup _ _ _ (issued_record_issued_at md L w)).
  rewrite (get_prop_lookup _ _ _ (issued_record_expires md L w)).
  unfold secret_in, wants_secret. rewrite Hnone. cbn.
  split_and!; try reflexivity. by intros ->.
Qed.

(** C4. When validation fails, [register] returns the object with [error]
    equal to ["invalid_client_metadata"] and [error_description] equal to
    the text of the validator's failure, and nothing else; the world is
    left as it was, so [registerClient] is not called and the store does
    not change. This holds for every store. *)
Theorem register_invalid_metadata store L raw w e :
  parse raw = Throw e →
  ∃ err,
    register js_String js_TypeError parse store L raw w = (Normal err, w)
    ∧ err !! "error" = Some (JStr "invalid_client_metadata")
    ∧ err !! "error_description" = Some (JStr (js_String e))
    ∧ dom err = {[ "error"; "error_description" ]}
    ∧ store_calls (snd (register js_String js_TypeError parse store L raw w))
      = store_calls w
    ∧ store_state (snd (register js_String js_TypeError parse store L raw w))
      = store_state w.
Proof.
  intros Hp. exists (registration_error js_String e).
  rewrite (register_invalid store L raw w e Hp). unfold registration_error.
  split_and!; [reflexivity | by simplify_map_eq | by simplify_map_eq
              | | reflexivity | reflexivity].
  rewrite !dom_insert_L, dom_empty_L. set_solver.
Qed.

(** C5. Construction throws the configuration error exactly when the
    store has no [registerClient], and yields a handler exactly when the
    store has one. *)
Theorem construction_requires_registerClient
    (options : ClientRegistrationHandlerOptions Thrown StoreState) :
  (registerClient (clientsStore options) = None
   ↔ clientRegistrationHandler js_String js_Error js_TypeError parse options
     = Throw (js_Error
         "Client registration store does not support registering clients"))
  ∧ (is_Some (registerClient (clientsStore options))
     ↔ ∃ handler,
         clientRegistrationHandler js_String js_Error js_TypeError parse
                                   options = Normal handler).
Proof.
  unfold clientRegistrationHandler.
  destruct (registerClient (clientsStore options)) as [f|].
  - split; split.
    + discriminate.
    + discriminate.
    + intros _. by eexists.
    + intros _. by eexists.
  - split; split.
    + reflexivity.
    + reflexivity.
    + intros [g Hg]. discriminate Hg.
    + intros [h Hh]. discriminate Hh.
Qed.

(** C6. When the metadata validates and the store's [registerClient]
    fails on the record it is handed, the promise of [register] is
    rejected with the store's failure (it is not fulfilled with any
    object), and the route answers 500 with the fixed text
    ["Internal Server Error"], the failure going to the console only. *)
Theorem store_failure_is_internal_error store f L raw md w info e :
  parse raw = Normal md →
  registerClient store = Some f →
  store_calls (snd (register js_String js_TypeError parse store L raw w)) =
    (store_calls w ++ [info])%list →
  fst (f info (store_state w)) = Throw e →
  fst (register js_String js_TypeError parse store L raw w) = Throw e
  ∧ fst (post_route js_String js_TypeError parse store L raw w) =
      mkResponse 500 (TextBody "Internal Server Error")
  ∧ console (snd (post_route js_String js_TypeError parse store L raw w)) =
      (console w
         ++ [("Uncaught error in client registration handler:", e)])%list.
Proof.
  intros Hp Hf Hcalls Hfail.
  rewrite (register_valid_calls store f L raw w md Hp Hf) in Hcalls.
  apply app_inj_tail in Hcalls as [_ <-].
  unfold post_route. rewrite (register_valid store f L raw w md Hp Hf).
  cbn [fst snd]. rewrite Hfail. by split_and!.
Qed.

(** C7. Two calls that pass validation, from any two worlds and even with
    the same metadata, hand the store records with different [client_id]
    values, provided the two draws from the identifier source differ. *)
Theorem register_fresh_client_id store1 store2 f1 f2 L1 L2 raw1 raw2
    md1 md2 w1 w2 :
  parse raw1 = Normal md1 →
  parse raw2 = Normal md2 →
  registerClient store1 = Some f1 →
  registerClient store2 = Some f2 →
  uuid_source w1 (uuid_drawn w1) ≠ uuid_source w2 (uuid_drawn w2) →
  ∃ info1 info2,
    store_calls
      (snd (register js_String js_TypeError parse store1 L1 raw1 w1)) =
      (store_calls w1 ++ [info1])%list
    ∧ store_calls
        (snd (register js_String js_TypeError parse store2 L2 raw2 w2)) =
        (store_calls w2 ++ [info2])%list
    ∧ get_prop info1 "client_id" = JStr (uuid_source w1 (uuid_drawn w1))
    ∧ get_prop info2 "client_id" = JStr (uuid_source w2 (uuid_drawn w2))
    ∧ get_prop info1 "client_id" ≠ get_prop info2 "client_id".
Proof.
  intros Hp1 Hp2 Hf1 Hf2 Hne.
  exists (issued_record md1 L1 w1), (issued_record md2 L2 w2).
  rewrite !(get_prop_lookup _ _ _ (issued_record_id _ _ _)).
  split_and!.
  - by apply register_valid_calls with f1.
  - by apply register_valid_calls with f2.
  - reflexivity.
  - reflexivity.
  - congruence.
Qed.

(** C8. For validated metadata, the record handed to the store agrees
    with the metadata on every property other than the four issued ones,
    carries the four issued ones with the issued values (whatever the
    metadata had under those names), has no further property, and what
    [registerClient] returns is the result of [register]. *)
Theorem register_frame store f L raw md w :
  parse raw = Normal md →
  registerClient store = Some f →
  ∃ info,
    store_calls (snd (register js_String js_TypeError parse store L raw w)) =
      (store_calls w ++ [info])%list
    ∧ (∀ k : string, k ∉ issued_fields → info !! k = md !! k)
    ∧ dom info = dom md ∪ issued_fields
    ∧ info !! "client_id" = Some (JStr (uuid_source w (uuid_drawn w)))
    ∧ info !! "client_secret" = Some (secret_in md w)
    ∧ info !! "client_id_issued_at" = Some (JNum (clock_ms w / 1000))
    ∧ info !! "client_secret_expires_at" =
        Some (JNum (if (0 <? L)%Z then clock_ms w / 1000 + L else 0))
    ∧ fst (register js_String js_TypeError parse store L raw w)
      = fst (f info (store_state w))
    ∧ store_state (snd (register js_String js_TypeError parse store L raw w)) =
        snd (f info (store_state w)).
Proof.
  intros Hp Hf. exists (issued_record md L w).
  rewrite (register_valid store f L raw w md Hp Hf). cbn [fst snd].
  split_and!; try reflexivity.
  - intros k Hk. unfold issued_fields in Hk.
    apply issued_record_other; intros ->; apply Hk; set_solver.
  - apply issued_record_dom.
  - apply issued_record_id.
  - apply issued_record_secret.
  - apply issued_record_issued_at.
  - apply issued_record_expires.
Qed.

(** C9. With a negative configured lifetime, [register] does exactly what
    it does with lifetime [0]; in particular, for validated metadata a
    record is still built and handed to the store, with
    [client_secret_expires_at] equal to [0]. *)
Theorem register_negative_expiry store L raw w :
  L < 0 →
  register js_String js_TypeError parse store L raw w
  = register js_String js_TypeError parse store 0 raw w
  ∧ ∀ md f,
      parse raw = Normal md →
      registerClient store = Some f →
      ∃ info,
        store_calls
          (snd (register js_String js_TypeError parse store L raw w)) =
          (store_calls w ++ [info])%list
        ∧ get_prop info "client_secret_expires_at" = JNum 0.
Proof.
  intros HL. split.
  - unfold register. destruct (parse raw) as [md|e]; [|reflexivity].
    unfold bind, randomUUID, randomBytes, Date_now, ret.
    destruct (strict_neq_string _ _); cbn;
      rewrite (clientInfo_literal_nonpositive _ _ _ _ L) by lia;
      reflexivity.
  - intros md f Hp Hf. exists (issued_record md L w).
    split; [by apply register_valid_calls with f|].
    rewrite (get_prop_lookup _ _ _ (issued_record_expires md L w)).
    replace (0 <? L)%Z with false by (symmetry; apply Z.ltb_ge; lia).
    reflexivity.
Qed.

(** C10. The route looks only at whether the value [register] resolved
    with has an [error] key: it answers 400 when it has one and 201 when
    it has none, with that value as the body. So when the store saves the
    record and returns one that carries an [error] key, the answer is
    400 although the store has changed. *)
Theorem route_classifies_by_error_key store L raw w :
  (∀ result w',
      register js_String js_TypeError parse store L raw w
      = (Normal result, w') →
      post_route js_String js_TypeError parse store L raw w =
        (mkResponse (if has_prop "error" result then 400 else 201)
                    (JsonBody result), w')
      ∧ (status (fst (post_route js_String js_TypeError parse store L raw w))
         = 400
         ↔ is_Some (result !! "error"))
      ∧ (status (fst (post_route js_String js_TypeError parse store L raw w))
         = 201
         ↔ result !! "error" = None))
  ∧ (∀ md f info stored,
      parse raw = Normal md →
      registerClient store = Some f →
      store_calls (snd (register js_String js_TypeError parse store L raw w)) =
        (store_calls w ++ [info])%list →
      fst (f info (store_state w)) = Normal stored →
      is_Some (stored !! "error") →
      fst (post_route js_String js_TypeError parse store L raw w)
      = mkResponse 400 (JsonBody stored)
      ∧ store_state
          (snd (post_route js_String js_TypeError parse store L raw w)) =
          snd (f info (store_state w))).
Proof.
  split.
  - intros result w' Hrun. unfold post_route, has_prop. rewrite Hrun.
    destruct (result !! "error") as [v|]; cbn.
    + split_and!; [reflexivity | | ]; split; done.
    + split_and!; [reflexivity | | ]; split; done.
  - intros md f info stored Hp Hf Hcalls Hok [v Hv].
    rewrite (register_valid_calls store f L raw w md Hp Hf) in Hcalls.
    apply app_inj_tail in Hcalls as [_ <-].
    unfold post_route, has_prop.
    rewrite (register_valid store f L raw w md Hp Hf).
    rewrite Hok, Hv. by split.
Qed.

End Properties.

(** * The properties on the test doubles *)

Lemma register_secret_expiry_witness :
  demo_parse confidential_request = Normal (metadata_of confidential_request)
  ∧ registerClient saving_store = Some save_record
  ∧ ∃ info issued_at,
      store_calls (snd (demo_register saving_store 2592000
                                      confidential_request demo_world)) =
        (store_calls demo_world ++ [info])%list
      ∧ get_prop info "client_id_issued_at" = JNum issued_at
      ∧ (0 < 2592000 →
         get_prop info "client_secret_expires_at" =
           JNum (issued_at + 2592000))
      ∧ (2592000 = 0 → get_prop info "client_secret_expires_at" = JNum 0).
Proof.
  split; [reflexivity|]. split; [reflexivity|].
  apply (register_secret_expiry demo_String demo_TypeError demo_parse
           saving_store save_record 2592000 confidential_request
           (metadata_of confidential_request) demo_world);
    reflexivity.
Defined.

Lemma register_secret_presence_witness :
  demo_parse confidential_request = Normal (metadata_of confidential_request)
  ∧ registerClient saving_store = Some save_record
  ∧ ∃ info,
      store_calls (snd (demo_register saving_store 60 confidential_request
                                      demo_world)) =
        (store_calls demo_world ++ [info])%list
      ∧ (get_prop info "client_secret" ≠ JUndefined
         ↔ get_prop (metadata_of confidential_request)
                    "token_endpoint_auth_method" ≠ JStr "none")
      ∧ (get_prop (metadata_of confidential_request)
                  "token_endpoint_auth_method" ≠ JStr "none" →
         ∃ secret, get_prop info "client_secret" = JStr secret
                   ∧ String.length secret = 64%nat).
Proof.
  split; [reflexivity|]. split; [reflexivity|].
  apply (register_secret_presence demo_String demo_TypeError demo_parse
           saving_store save_record 60 confidential_request
           (metadata_of confidential_request) demo_world);
    reflexivity.
Defined.

(** C3 as the specification words it fails on the code: a public client
    registered under the default lifetime at second 1700000000 gets a record
    whose [client_secret_expires_at] is [1702592000], which is neither
    missing nor [0]. *)
Lemma register_public_client_expiry_counterexample :
  let w' := snd (demo_register saving_store
                               DEFAULT_CLIENT_SECRET_EXPIRY_SECONDS
                               public_request demo_world) in
  clientRegistrationHandler demo_String demo_Error demo_TypeError demo_parse
      (mkOptions saving_store None)
    = Normal (demo_route saving_store DEFAULT_CLIENT_SECRET_EXPIRY_SECONDS)
  ∧ (∃ md, demo_parse public_request = Normal md
           ∧ get_prop md "token_endpoint_auth_method" = JStr "none")
  ∧ (∃ info, store_calls w' = [info]
             ∧ get_prop info "client_secret" = JUndefined
             ∧ get_prop info "client_secret_expires_at" = JNum 1702592000)
  ∧ ¬ (∃ info, store_calls w' = [info]
               ∧ get_prop info "client_secret" = JUndefined
               ∧ (get_prop info "client_secret_expires_at" = JUndefined
                  ∨ get_prop info "client_secret_expires_at" = JNum 0)).
Proof.
  intros w'. split_and!.
  - reflexivity.
  - exists (metadata_of public_request). by split.
  - eexists. split; [reflexivity|]. by split.
  - intros (info & Hcalls & _ & Hexp).
    assert (Hval : get_prop info "client_secret_expires_at" = JNum 1702592000).
    { injection Hcalls as <-. reflexivity. }
    rewrite Hval in Hexp. destruct Hexp as [Hexp|Hexp]; discriminate Hexp.
Qed.

Lemma register_public_client_witness :
  demo_parse public_request = Normal (metadata_of public_request)
  ∧ registerClient saving_store = Some save_record
  ∧ get_prop (metadata_of public_request) "token_endpoint_auth_method"
    = JStr "none"
  ∧ ∃ info issued_at,
      store_calls (snd (demo_register saving_store
                                      DEFAULT_CLIENT_SECRET_EXPIRY_SECONDS
                                      public_request demo_world)) =
        (store_calls demo_world ++ [info])%list
      ∧ get_prop info "client_secret" = JUndefined
      ∧ get_prop info "client_id_issued_at" = JNum issued_at
      ∧ get_prop info "client_secret_expires_at" =
          JNum (if (0 <? DEFAULT_CLIENT_SECRET_EXPIRY_SECONDS)%Z
                then issued_at + DEFAULT_CLIENT_SECRET_EXPIRY_SECONDS else 0)
      ∧ (DEFAULT_CLIENT_SECRET_EXPIRY_SECONDS
         = DEFAULT_CLIENT_SECRET_EXPIRY_SECONDS →
         get_prop info "client_secret_expires_at" =
           JNum (issued_at + 2592000)).
Proof.
  split; [reflexivity|]. split; [reflexivity|]. split; [reflexivity|].
  apply (register_public_client demo_String demo_TypeError demo_parse
           saving_store save_record DEFAULT_CLIENT_SECRET_EXPIRY_SECONDS
           public_request (metadata_of public_request) demo_world);
    reflexivity.
Defined.

Lemma register_invalid_metadata_witness :
  demo_parse invalid_request = Throw "ZodError: redirect_uris: Required"
  ∧ ∃ err,
      demo_register saving_store 60 invalid_request demo_world
        = (Normal err, demo_world)
      ∧ err !! "error" = Some (JStr "invalid_client_metadata")
      ∧ err !! "error_description" =
          Some (JStr (demo_String "ZodError: redirect_uris: Required"))
      ∧ dom err = {[ "error"; "error_description" ]}
      ∧ store_calls (snd (demo_register saving_store 60 invalid_request
                                        demo_world)) = store_calls demo_world
      ∧ store_state (snd (demo_register saving_store 60 invalid_request
                                        demo_world)) = store_state demo_world.
Proof.
  split; [reflexivity|].
  apply (register_invalid_metadata demo_String demo_TypeError demo_parse
           saving_store 60 invalid_request demo_world
           "ZodError: redirect_uris: Required").
  reflexivity.
Defined.

Lemma construction_requires_registerClient_witness :
  (registerClient (clientsStore (mkOptions readonly_store None)) = None
   ↔ clientRegistrationHandler demo_String demo_Error demo_TypeError
       demo_parse (mkOptions readonly_store None)
     = Throw (demo_Error
         "Client registration store does not support registering clients"))
  ∧ (is_Some (registerClient (clientsStore (mkOptions readonly_store None)))
     ↔ ∃ handler,
         clientRegistrationHandler demo_String demo_Error demo_TypeError
           demo_parse (mkOptions readonly_store None) = Normal handler).
Proof.
  exact (construction_requires_registerClient demo_String demo_Error
           demo_TypeError demo_parse (mkOptions readonly_store None)).
Defined.

Lemma store_failure_is_internal_error_witness :
  let info := issued_record (metadata_of public_request) 60 demo_world in
  demo_parse public_request = Normal (metadata_of public_request)
  ∧ registerClient failing_store = Some refuse_record
  ∧ store_calls (snd (demo_register failing_store 60 public_request
                                    demo_world)) =
      (store_calls demo_world ++ [info])%list
  ∧ fst (refuse_record info (store_state demo_world))
    = Throw "Error: database unavailable"
  ∧ fst (demo_register failing_store 60 public_request demo_world)
    = Throw "Error: database unavailable"
  ∧ fst (demo_route failing_store 60 public_request demo_world) =
      mkResponse 500 (TextBody "Internal Server Error")
  ∧ console (snd (demo_route failing_store 60 public_request demo_world)) =
      (console demo_world
         ++ [("Uncaught error in client registration handler:",
              "Error: database unavailable")])%list.
Proof.
  intros info.
  split; [reflexivity|]. split; [reflexivity|]. split; [reflexivity|].
  split; [reflexivity|].
  apply (store_failure_is_internal_error demo_String demo_TypeError
           demo_parse failing_store refuse_record 60 public_request
           (metadata_of public_request) demo_world info
           "Error: database unavailable");
    reflexivity.
Defined.

(** The same request twice in a row against the same store. *)
Lemma register_fresh_client_id_witness :
  let w1 := demo_world in
  let w2 := snd (demo_register saving_store 60 public_request demo_world) in
  demo_parse public_request = Normal (metadata_of public_request)
  ∧ registerClient saving_store = Some save_record
  ∧ uuid_source w1 (uuid_drawn w1) ≠ uuid_source w2 (uuid_drawn w2)
  ∧ ∃ info1 info2,
      store_calls (snd (demo_register saving_store 60 public_request w1)) =
        (store_calls w1 ++ [info1])%list
      ∧ store_calls (snd (demo_register saving_store 60 public_request w2)) =
          (store_calls w2 ++ [info2])%list
      ∧ get_prop info1 "client_id" = JStr (uuid_source w1 (uuid_drawn w1))
      ∧ get_prop info2 "client_id" = JStr (uuid_source w2 (uuid_drawn w2))
      ∧ get_prop info1 "client_id" ≠ get_prop info2 "client_id".
Proof.
  intros w1 w2.
  split; [reflexivity|]. split; [reflexivity|].
  split; [vm_compute; discriminate|].
  apply (register_fresh_client_id demo_String demo_TypeError demo_parse
           saving_store saving_store save_record save_record 60 60
           public_request public_request
           (metadata_of public_request) (metadata_of public_request) w1 w2);
    try reflexivity.
  vm_compute; discriminate.
Defined.

(** The client asked for its own [client_id]; the issued one replaces it. *)
Lemma register_frame_witness :
  demo_parse confidential_request = Normal (metadata_of confidential_request)
  ∧ registerClient saving_store = Some save_record
  ∧ metadata_of confidential_request !! "client_id"
    = Some (JStr "chosen-by-the-client")
  ∧ ∃ info,
      store_calls (snd (demo_register saving_store 60 confidential_request
                                      demo_world)) =
        (store_calls demo_world ++ [info])%list
      ∧ (∀ k : string,
           k ∉ issued_fields →
           info !! k = metadata_of confidential_request !! k)
      ∧ dom info = dom (metadata_of confidential_request) ∪ issued_fields
      ∧ info !! "client_id" =
          Some (JStr (uuid_source demo_world (uuid_drawn demo_world)))
      ∧ info !! "client_secret" =
          Some (secret_in (metadata_of confidential_request) demo_world)
      ∧ info !! "client_id_issued_at" =
          Some (JNum (clock_ms demo_world / 1000))
      ∧ info !! "client_secret_expires_at" =
          Some (JNum (if (0 <? 60)%Z
                      then clock_ms demo_world / 1000 + 60 else 0))
      ∧ fst (demo_register saving_store 60 confidential_request demo_world)
        = fst (save_record info (store_state demo_world))
      ∧ store_state (snd (demo_register saving_store 60 confidential_request
                                        demo_world))
        = snd (save_record info (store_state demo_world)).
Proof.
  split; [reflexivity|]. split; [reflexivity|]. split; [reflexivity|].
  apply (register_frame demo_String demo_TypeError demo_parse
           saving_store save_record 60 confidential_request
           (metadata_of confidential_request) demo_world);
    reflexivity.
Defined.

Lemma register_negative_expiry_witness :
  -5 < 0
  ∧ demo_register saving_store (-5) confidential_request demo_world
    = demo_register saving_store 0 confidential_request demo_world
  ∧ ∀ md f,
      demo_parse confidential_request = Normal md →
      registerClient saving_store = Some f →
      ∃ info,
        store_calls (snd (demo_register saving_store (-5)
                                        confidential_request demo_world)) =
          (store_calls demo_world ++ [info])%list
        ∧ get_prop info "client_secret_expires_at" = JNum 0.
Proof.
  split; [lia|].
  apply (register_negative_expiry demo_String demo_TypeError demo_parse
           saving_store (-5) confidential_request demo_world).
  lia.
Defined.

(** A store that saves the record and answers with one carrying [error]:
    the registration is in the store and the caller is told 400. *)
(** A store that saves the record and answers with one carrying [error]:
    the registration is in the store and the caller is told 400. *)
Lemma route_classifies_by_error_key_witness :
  let info := issued_record (metadata_of public_request) 60 demo_world in
  let stored : jsobj := <["error" := JNull]> info in
  demo_parse public_request = Normal (metadata_of public_request)
  ∧ registerClient tagging_store = Some tag_record
  ∧ store_calls (snd (demo_register tagging_store 60 public_request
                                    demo_world)) =
      (store_calls demo_world ++ [info])%list
  ∧ fst (tag_record info (store_state demo_world)) = Normal stored
  ∧ is_Some (stored !! "error")
  ∧ fst (demo_route tagging_store 60 public_request demo_world)
    = mkResponse 400 (JsonBody stored)
  ∧ store_state (snd (demo_route tagging_store 60 public_request demo_world))
    = [info]
  ∧ status (fst (demo_route saving_store 60 public_request demo_world)) = 201.
Proof.
  intros info stored.
  split; [reflexivity|]. split; [reflexivity|]. split; [reflexivity|].
  split; [reflexivity|]. split; [by eexists|].
  pose proof (proj2 (route_classifies_by_error_key demo_String demo_TypeError
                       demo_parse tagging_store 60 public_request demo_world)
                (metadata_of public_request) tag_record info stored
                eq_refl eq_refl eq_refl eq_refl
                (ex_intro _ JNull eq_refl)) as [Hresp Hstate].
  split; [exact Hresp|]. split; [exact Hstate|].
  apply (proj1 (route_classifies_by_error_key demo_String demo_TypeError
                  demo_parse saving_store 60 public_request demo_world)
           info (snd (demo_register saving_store 60 public_request
                                    demo_world))).
  - reflexivity.
  - reflexivity.
Defined.

(** * Further properties of the handler *)

(** ** The hexadecimal form of the secret *)

Lemma hex_digit_is_hex (n : N) : is_hex_digit (hex_digit n) = true.
Proof.
  destruct n as [|p]; [reflexivity|].
  do 4 (destruct p as [p|p|]; try reflexivity).
Qed.

Lemma to_hex_digits (bs : list byte) :
  Forall (fun c => is_hex_digit c = true) (list_ascii_of_string (to_hex bs)).
Proof.
  induction bs as [|b rest IH]; [constructor|].
  cbn [to_hex].
  change (byte_to_hex b +:+ to_hex rest)
    with (String (hex_digit (Byte.to_N b / 16))
            (String (hex_digit (Byte.to_N b mod 16)) (to_hex rest))).
  cbn [list_ascii_of_string].
  repeat constructor; auto using hex_digit_is_hex.
Qed.

Lemma hex_digit_inj (n m : N) :
  (n < 16)%N → (m < 16)%N → hex_digit n = hex_digit m → n = m.
Proof.
  intros Hn Hm.
  assert (Hcases : ∀ k : N, (k < 16)%N →
            k ∈ [0; 1; 2; 3; 4; 5; 6; 7; 8; 9; 10; 11; 12; 13; 14; 15]%N).
  { intros k Hk. rewrite !elem_of_cons. lia. }
  pose proof (Hcases n Hn) as Hin. pose proof (Hcases m Hm) as Him.
  clear Hcases Hn Hm.
  rewrite !elem_of_cons, elem_of_nil in Hin, Him.
  repeat (destruct Hin as [->|Hin]); try contradiction;
    repeat (destruct Him as [->|Him]); try contradiction;
    intros Heq; try reflexivity; discriminate Heq.
Qed.

Lemma byte_to_hex_inj (b1 b2 : byte) :
  byte_to_hex b1 = byte_to_hex b2 → b1 = b2.
Proof.
  unfold byte_to_hex. intros Heq. injection Heq as Hhi Hlo.
  pose proof (Byte.to_N_bounded b1) as Hb1.
  pose proof (Byte.to_N_bounded b2) as Hb2.
  apply hex_digit_inj in Hhi;
    [|apply N.Div0.div_lt_upper_bound; lia..].
  apply hex_digit_inj in Hlo; [|apply N.mod_lt; lia..].
  assert (Hn : Byte.to_N b1 = Byte.to_N b2).
  { rewrite (N.div_mod (Byte.to_N b1) 16), (N.div_mod (Byte.to_N b2) 16) by lia.
    by rewrite Hhi, Hlo. }
  apply (f_equal Byte.of_N) in Hn. rewrite !Byte.of_to_N in Hn.
  by injection Hn.
Qed.

Lemma to_hex_inj (bs1 bs2 : list byte) :
  to_hex bs1 = to_hex bs2 → bs1 = bs2.
Proof.
  revert bs2. induction bs1 as [|b1 r1 IH]; intros [|b2 r2]; cbn [to_hex].
  - reflexivity.
  - discriminate.
  - discriminate.
  - change (byte_to_hex b1 +:+ to_hex r1)
      with (String (hex_digit (Byte.to_N b1 / 16))
              (String (hex_digit (Byte.to_N b1 mod 16)) (to_hex r1))).
    change (byte_to_hex b2 +:+ to_hex r2)
      with (String (hex_digit (Byte.to_N b2 / 16))
              (String (hex_digit (Byte.to_N b2 mod 16)) (to_hex r2))).
    intros Heq. injection Heq as Hhi Hlo Hrest.
    f_equal; [|by apply IH].
    apply byte_to_hex_inj. unfold byte_to_hex. by rewrite Hhi, Hlo.
Qed.

Section FurtherProperties.

Context {Thrown : Type}.
Variable js_String : Thrown → string.
Variable js_Error : string → Thrown.
Variable js_TypeError : string → Thrown.
Variable parse : jsval → Completion Thrown jsobj.
Context {StoreState : Type}.

Implicit Types (store : OAuthRegisteredClientsStore Thrown StoreState).
Implicit Types (w : World Thrown StoreState).
Implicit Types (md info : jsobj) (L : Z) (raw : jsval) (e : Thrown).

(** ** What one request does to the world *)

Lemma registration_error_has_error e :
  has_prop "error" (registration_error js_String e) = true.
Proof. unfold has_prop, registration_error. by simplify_map_eq. Qed.

Lemma post_route_invalid store L raw w e :
  parse raw = Throw e →
  post_route js_String js_TypeError parse store L raw w
  = (mkResponse 400 (JsonBody (registration_error js_String e)), w).
Proof.
  intros Hp. unfold post_route.
  rewrite (register_invalid js_String js_TypeError parse store L raw w e Hp).
  by rewrite registration_error_has_error.
Qed.

Lemma post_route_valid store f L raw w md :
  parse raw = Normal md →
  registerClient store = Some f →
  let w' := snd (post_route js_String js_TypeError parse store L raw w) in
  uuid_source w' = uuid_source w
  ∧ uuid_drawn w' = S (uuid_drawn w)
  ∧ store_calls w' = (store_calls w ++ [issued_record md L w])%list
  ∧ store_state w' = snd (f (issued_record md L w) (store_state w)).
Proof.
  intros Hp Hf. unfold post_route.
  rewrite (register_valid js_String js_TypeError parse store f L raw w md
             Hp Hf).
  destruct (f (issued_record md L w) (store_state w)) as [[r|e] s']; cbn.
  - by destruct (has_prop "error" r).
  - done.
Qed.

Lemma register_keeps_console store L raw w :
  console (snd (register js_String js_TypeError parse store L raw w))
  = console w.
Proof.
  unfold register, bind, randomUUID, randomBytes, Date_now, ret,
    call_registerClient, throw.
  destruct (parse raw) as [md|e]; [|reflexivity].
  destruct (strict_neq_string _ _); cbn;
    destruct (registerClient store) as [f|]; cbn; try reflexivity;
    destruct (f _ _) as [[r|e] s']; reflexivity.
Qed.

(** ** The route *)

(** X1. A body the validator rejects is answered 400 with the error object
    as body, and the request leaves the world as it found it: nothing is
    drawn, stored or logged. This holds for every store. *)
Theorem route_rejects_invalid_metadata store L raw w e :
  parse raw = Throw e →
  ∃ err,
    post_route js_String js_TypeError parse store L raw w
    = (mkResponse 400 (JsonBody err), w)
    ∧ get_prop err "error" = JStr "invalid_client_metadata"
    ∧ get_prop err "error_description" = JStr (js_String e).
Proof.
  intros Hp. exists (registration_error js_String e).
  split; [by apply post_route_invalid|].
  unfold get_prop, registration_error. by simplify_map_eq.
Qed.

(** X2. Every request is answered 201, 400 or 500. It is 500 exactly when
    the promise of [register] was rejected; the body is then the fixed
    text, whatever was thrown, and the console gets one more entry. In the
    other cases the body is the value [register] resolved with and the
    console is not written. *)
Theorem route_status_and_console store L raw w :
  let run := register js_String js_TypeError parse store L raw w in
  let out := post_route js_String js_TypeError parse store L raw w in
  (status (fst out) = 201 ∨ status (fst out) = 400 ∨ status (fst out) = 500)
  ∧ (status (fst out) = 500 ↔ ∃ e, fst run = Throw e)
  ∧ (status (fst out) = 500 →
     body (fst out) = TextBody "Internal Server Error"
     ∧ length (console (snd out)) = S (length (console w)))
  ∧ (status (fst out) ≠ 500 →
     (∃ result, fst run = Normal result ∧ body (fst out) = JsonBody result)
     ∧ console (snd out) = console w).
Proof.
  intros run out. subst run out. unfold post_route.
  pose proof (register_keeps_console store L raw w) as Hc.
  destruct (register js_String js_TypeError parse store L raw w)
    as [[result|e] w']; cbn [fst snd] in *.
  - destruct (has_prop "error" result); cbn; split_and!.
    + by right; left.
    + split; [discriminate | by intros [e He]].
    + discriminate.
    + intros _. split; [by eexists | exact Hc].
    + by left.
    + split; [discriminate | by intros [e He]].
    + discriminate.
    + intros _. split; [by eexists | exact Hc].
  - cbn. split_and!.
    + by right; right.
    + split; [by eexists | reflexivity].
    + intros _. split; [reflexivity|].
      rewrite length_app, Hc. cbn. lia.
    + intros Hne. by destruct Hne.
Qed.

(** ** The issued record *)


(** X4. [client_id_issued_at] is the clock reading cut down to whole
    seconds: the last full second not after the reading, also for readings
    before the epoch. *)
Theorem issued_at_is_floor_of_clock store f L raw md w :
  parse raw = Normal md →
  registerClient store = Some f →
  ∃ info issued_at,
    store_calls (snd (register js_String js_TypeError parse store L raw w)) =
      (store_calls w ++ [info])%list
    ∧ get_prop info "client_id_issued_at" = JNum issued_at
    ∧ 1000 * issued_at ≤ clock_ms w < 1000 * issued_at + 1000.
Proof.
  intros Hp Hf. exists (issued_record md L w), (clock_ms w / 1000).
  split_and!.
  - by apply (register_valid_calls js_String js_TypeError parse) with f.
  - apply get_prop_lookup, issued_record_issued_at.
  - apply Z.mul_div_le. lia.
  - pose proof (Z.mod_pos_bound (clock_ms w) 1000 ltac:(lia)) as Hm.
    pose proof (Z.div_mod (clock_ms w) 1000 ltac:(lia)) as Hd. lia.
Qed.

(** X5. The secret issued to a client whose method is not ["none"] is
    written with the digits [0-9a-f] only. *)
Theorem secret_is_lowercase_hex store f L raw md w :
  parse raw = Normal md →
  registerClient store = Some f →
  get_prop md "token_endpoint_auth_method" ≠ JStr "none" →
  ∃ info secret,
    store_calls (snd (register js_String js_TypeError parse store L raw w)) =
      (store_calls w ++ [info])%list
    ∧ get_prop info "client_secret" = JStr secret
    ∧ Forall (fun c => is_hex_digit c = true) (list_ascii_of_string secret).
Proof.
  intros Hp Hf Hm. apply strict_neq_string_spec in Hm.
  exists (issued_record md L w),
         (to_hex (map (byte_source w) (seq (bytes_drawn w) 32))).
  split_and!.
  - by apply (register_valid_calls js_String js_TypeError parse) with f.
  - rewrite (get_prop_lookup _ _ _ (issued_record_secret md L w)).
    unfold secret_in, wants_secret. by rewrite Hm.
  - apply to_hex_digits.
Qed.

(** X6. The hexadecimal form loses nothing: two registrations that both
    issue a secret issue the same secret only if they drew the same 32
    bytes. *)
Theorem secret_determined_by_bytes store1 store2 f1 f2 L1 L2 raw1 raw2
    md1 md2 w1 w2 :
  parse raw1 = Normal md1 →
  parse raw2 = Normal md2 →
  registerClient store1 = Some f1 →
  registerClient store2 = Some f2 →
  get_prop md1 "token_endpoint_auth_method" ≠ JStr "none" →
  get_prop md2 "token_endpoint_auth_method" ≠ JStr "none" →
  ∃ info1 info2,
    store_calls
      (snd (register js_String js_TypeError parse store1 L1 raw1 w1)) =
      (store_calls w1 ++ [info1])%list
    ∧ store_calls
        (snd (register js_String js_TypeError parse store2 L2 raw2 w2)) =
        (store_calls w2 ++ [info2])%list
    ∧ (get_prop info1 "client_secret" = get_prop info2 "client_secret"
       ↔ map (byte_source w1) (seq (bytes_drawn w1) 32)
         = map (byte_source w2) (seq (bytes_drawn w2) 32)).
Proof.
  intros Hp1 Hp2 Hf1 Hf2 Hm1 Hm2.
  apply strict_neq_string_spec in Hm1, Hm2.
  exists (issued_record md1 L1 w1), (issued_record md2 L2 w2).
  split_and!.
  - by apply (register_valid_calls js_String js_TypeError parse) with f1.
  - by apply (register_valid_calls js_String js_TypeError parse) with f2.
  - rewrite !(get_prop_lookup _ _ _ (issued_record_secret _ _ _)).
    unfold secret_in, wants_secret. rewrite Hm1, Hm2. split.
    + intros Heq. apply to_hex_inj.
      exact (f_equal (fun v => match v with JStr s => s | _ => "" end) Heq).
    + by intros ->.
Qed.

(** X7. A registration that passes validation draws one identifier, draws
    32 random bytes when a secret is issued and none otherwise, hands one
    record to the store, and leaves the clock, the sources and the console
    alone. *)
Theorem register_consumption store f L raw md w :
  parse raw = Normal md →
  registerClient store = Some f →
  let w' := snd (register js_String js_TypeError parse store L raw w) in
  uuid_drawn w' = S (uuid_drawn w)
  ∧ bytes_drawn w' =
      (bytes_drawn w
       + (if strict_neq_string
               (get_prop md "token_endpoint_auth_method") "none"
          then 32 else 0))%nat
  ∧ length (store_calls w') = S (length (store_calls w))
  ∧ uuid_source w' = uuid_source w
  ∧ byte_source w' = byte_source w
  ∧ clock_ms w' = clock_ms w
  ∧ console w' = console w.
Proof.
  intros Hp Hf w'. subst w'.
  rewrite (register_valid js_String js_TypeError parse store f L raw w md
             Hp Hf).
  cbn [snd uuid_drawn bytes_drawn store_calls uuid_source byte_source
       clock_ms console].
  split_and!; try reflexivity.
  rewrite length_app. cbn. lia.
Qed.

(** ** A constructed handler *)


(** ** Requests served one after the other *)

Lemma issued_record_client_id md L w :
  get_prop (issued_record md L w) "client_id"
  = JStr (uuid_source w (uuid_drawn w)).
Proof. apply get_prop_lookup, issued_record_id. Qed.

Lemma serve_post_route store f L (bodies : list jsval) w :
  registerClient store = Some f →
  let out :=
    serve (post_route js_String js_TypeError parse store L) bodies w in
  length (fst out) = length bodies
  ∧ uuid_source (snd out) = uuid_source w
  ∧ uuid_drawn (snd out) = (uuid_drawn w + valid_count parse bodies)%nat
  ∧ length (store_calls (snd out)) =
      (length (store_calls w) + valid_count parse bodies)%nat
  ∧ client_ids (store_calls (snd out)) =
      (client_ids (store_calls w)
       ++ map (fun i => JStr (uuid_source w i))
              (seq (uuid_drawn w) (valid_count parse bodies)))%list.
Proof.
  intros Hf. revert w.
  induction bodies as [|b rest IH]; intros w out; subst out.
  - cbn. rewrite !Nat.add_0_r, app_nil_r. by split_and!.
  - cbn [serve].
    destruct (post_route js_String js_TypeError parse store L b w)
      as [r w1] eqn:Hr.
    specialize (IH w1). cbn zeta in IH.
    destruct (serve (post_route js_String js_TypeError parse store L) rest w1)
      as [rs w2].
    cbn [fst snd length] in *.
    destruct IH as (IHlen & IHsrc & IHdrawn & IHcalls & IHids).
    unfold valid_count in *. cbn [List.filter].
    destruct (parse b) as [md|e] eqn:Hp.
    + assert (Hval : validates parse b = true)
        by (unfold validates; by rewrite Hp).
      rewrite Hval.
      pose proof (post_route_valid store f L b w md Hp Hf) as Hv.
      cbn zeta in Hv. rewrite Hr in Hv. cbn [snd] in Hv.
      destruct Hv as (Hsrc & Hdrawn & Hcalls & _).
      cbn [length seq map].
      rewrite IHlen, IHsrc, IHdrawn, IHcalls, IHids, Hsrc, Hdrawn, Hcalls.
      unfold client_ids. rewrite map_app, length_app. cbn [map length].
      rewrite issued_record_client_id, <- app_assoc. cbn [app].
      split_and!; try reflexivity; lia.
    + assert (Hval : validates parse b = false)
        by (unfold validates; by rewrite Hp).
      rewrite Hval.
      rewrite (post_route_invalid store L b w e Hp) in Hr.
      injection Hr as _ <-.
      rewrite IHlen. by split_and!.
Qed.

(** X9. When requests are served one after the other, every request gets
    one response, and the store's [registerClient] is run once for each
    body that validates and never for one that does not: the log of
    records grows by the number of valid bodies. *)
Theorem serve_calls_store_once_per_valid_body store f L
    (bodies : list jsval) w :
  registerClient store = Some f →
  length (fst (serve (post_route js_String js_TypeError parse store L)
                     bodies w)) = length bodies
  ∧ length (store_calls
              (snd (serve (post_route js_String js_TypeError parse store L)
                          bodies w)))
    = (length (store_calls w) + valid_count parse bodies)%nat.
Proof.
  intros Hf.
  pose proof (serve_post_route store f L bodies w Hf) as H.
  cbn zeta in H. by destruct H as (? & _ & _ & ? & _).
Qed.

(** X10. Starting from an empty log, the [client_id] values of the records
    handed to the store are, in order, the successive draws of the
    identifier source, one for each valid body; so if those draws are
    pairwise different, no two records in the log share a [client_id]. *)
Theorem serve_client_ids_distinct store f L (bodies : list jsval) w :
  registerClient store = Some f →
  store_calls w = [] →
  NoDup (map (uuid_source w)
             (seq (uuid_drawn w) (valid_count parse bodies))) →
  client_ids
    (store_calls
       (snd (serve (post_route js_String js_TypeError parse store L)
                   bodies w)))
  = map (fun i => JStr (uuid_source w i))
        (seq (uuid_drawn w) (valid_count parse bodies))
  ∧ NoDup
      (client_ids
         (store_calls
            (snd (serve (post_route js_String js_TypeError parse store L)
                        bodies w)))).
Proof.
  intros Hf Hempty Hnodup.
  pose proof (serve_post_route store f L bodies w Hf) as H.
  cbn zeta in H. destruct H as (_ & _ & _ & _ & Hids).
  rewrite Hempty in Hids. cbn [client_ids map app] in Hids.
  split; [exact Hids|]. rewrite Hids.
  rewrite <- (map_map (uuid_source w) JStr).
  assert (Hinj : Inj (=) (=) JStr) by (intros s1 s2 Heq; by injection Heq).
  exact (NoDup_fmap_2 JStr _ Hnodup).
Qed.

End FurtherProperties.

(** * The further properties on the test doubles *)

Lemma route_rejects_invalid_metadata_witness :
  demo_parse invalid_request = Throw "ZodError: redirect_uris: Required"
  ∧ ∃ err,
      demo_route readonly_store 60 invalid_request demo_world
      = (mkResponse 400 (JsonBody err), demo_world)
      ∧ get_prop err "error" = JStr "invalid_client_metadata"
      ∧ get_prop err "error_description" =
          JStr (demo_String "ZodError: redirect_uris: Required").
Proof.
  split; [reflexivity|].
  apply (route_rejects_invalid_metadata demo_String demo_TypeError demo_parse
           readonly_store 60 invalid_request demo_world
           "ZodError: redirect_uris: Required").
  reflexivity.
Defined.


Lemma issued_at_is_floor_of_clock_witness :
  demo_parse public_request = Normal (metadata_of public_request)
  ∧ registerClient saving_store = Some save_record
  ∧ ∃ info issued_at,
      store_calls (snd (demo_register saving_store 60 public_request
                                      demo_world)) =
        (store_calls demo_world ++ [info])%list
      ∧ get_prop info "client_id_issued_at" = JNum issued_at
      ∧ 1000 * issued_at ≤ clock_ms demo_world < 1000 * issued_at + 1000.
Proof.
  split; [reflexivity|]. split; [reflexivity|].
  apply (issued_at_is_floor_of_clock demo_String demo_TypeError demo_parse
           saving_store save_record 60 public_request
           (metadata_of public_request) demo_world);
    reflexivity.
Defined.

Lemma secret_is_lowercase_hex_witness :
  demo_parse confidential_request = Normal (metadata_of confidential_request)
  ∧ registerClient saving_store = Some save_record
  ∧ get_prop (metadata_of confidential_request) "token_endpoint_auth_method"
    ≠ JStr "none"
  ∧ ∃ info secret,
      store_calls (snd (demo_register saving_store 60 confidential_request
                                      demo_world)) =
        (store_calls demo_world ++ [info])%list
      ∧ get_prop info "client_secret" = JStr secret
      ∧ Forall (fun c => is_hex_digit c = true)
               (list_ascii_of_string secret).
Proof.
  split; [reflexivity|]. split; [reflexivity|].
  split; [vm_compute; discriminate|].
  apply (secret_is_lowercase_hex demo_String demo_TypeError demo_parse
           saving_store save_record 60 confidential_request
           (metadata_of confidential_request) demo_world);
    try reflexivity.
  vm_compute; discriminate.
Defined.

(** The same confidential request twice in a row: the second secret is made
    from the next 32 bytes. *)
Lemma secret_determined_by_bytes_witness :
  let w1 := demo_world in
  let w2 :=
    snd (demo_register saving_store 60 confidential_request demo_world) in
  demo_parse confidential_request = Normal (metadata_of confidential_request)
  ∧ registerClient saving_store = Some save_record
  ∧ get_prop (metadata_of confidential_request) "token_endpoint_auth_method"
    ≠ JStr "none"
  ∧ ∃ info1 info2,
      store_calls
        (snd (demo_register saving_store 60 confidential_request w1)) =
        (store_calls w1 ++ [info1])%list
      ∧ store_calls
          (snd (demo_register saving_store 60 confidential_request w2)) =
          (store_calls w2 ++ [info2])%list
      ∧ (get_prop info1 "client_secret" = get_prop info2 "client_secret"
         ↔ map (byte_source w1) (seq (bytes_drawn w1) 32)
           = map (byte_source w2) (seq (bytes_drawn w2) 32)).
Proof.
  intros w1 w2.
  split; [reflexivity|]. split; [reflexivity|].
  split; [vm_compute; discriminate|].
  apply (secret_determined_by_bytes demo_String demo_TypeError demo_parse
           saving_store saving_store save_record save_record 60 60
           confidential_request confidential_request
           (metadata_of confidential_request)
           (metadata_of confidential_request) w1 w2);
    try reflexivity; vm_compute; discriminate.
Defined.

Lemma register_consumption_witness :
  let w' := snd (demo_register saving_store 60 public_request demo_world) in
  demo_parse public_request = Normal (metadata_of public_request)
  ∧ registerClient saving_store = Some save_record
  ∧ uuid_drawn w' = S (uuid_drawn demo_world)
  ∧ bytes_drawn w' =
      (bytes_drawn demo_world
       + (if strict_neq_string
               (get_prop (metadata_of public_request)
                         "token_endpoint_auth_method") "none"
          then 32 else 0))%nat
  ∧ length (store_calls w') = S (length (store_calls demo_world))
  ∧ uuid_source w' = uuid_source demo_world
  ∧ byte_source w' = byte_source demo_world
  ∧ clock_ms w' = clock_ms demo_world
  ∧ console w' = console demo_world.
Proof.
  intros w'.
  split; [reflexivity|]. split; [reflexivity|].
  apply (register_consumption demo_String demo_TypeError demo_parse
           saving_store save_record 60 public_request
           (metadata_of public_request) demo_world);
    reflexivity.
Defined.


(** Four requests in a row, the second one invalid: four responses, three
    records in the store's log. *)
Lemma serve_calls_store_once_per_valid_body_witness :
  registerClient saving_store = Some save_record
  ∧ valid_count demo_parse demo_requests = 3%nat
  ∧ length (fst (serve (demo_route saving_store 60) demo_requests
                       demo_world)) = length demo_requests
  ∧ length (store_calls
              (snd (serve (demo_route saving_store 60) demo_requests
                          demo_world)))
    = (length (store_calls demo_world)
       + valid_count demo_parse demo_requests)%nat.
Proof.
  split; [reflexivity|]. split; [reflexivity|].
  apply (serve_calls_store_once_per_valid_body demo_String demo_TypeError
           demo_parse saving_store save_record 60 demo_requests demo_world).
  reflexivity.
Defined.

Lemma serve_client_ids_distinct_witness :
  registerClient saving_store = Some save_record
  ∧ store_calls demo_world = []
  ∧ NoDup (map (uuid_source demo_world)
               (seq (uuid_drawn demo_world)
                    (valid_count demo_parse demo_requests)))
  ∧ client_ids
      (store_calls
         (snd (serve (demo_route saving_store 60) demo_requests demo_world)))
    = map (fun i => JStr (uuid_source demo_world i))
          (seq (uuid_drawn demo_world)
               (valid_count demo_parse demo_requests))
  ∧ NoDup
      (client_ids
         (store_calls
            (snd (serve (demo_route saving_store 60) demo_requests
                        demo_world)))).
Proof.
  assert (Hdraws :
            NoDup (map (uuid_source demo_world)
                       (seq (uuid_drawn demo_world)
                            (valid_count demo_parse demo_requests)))).
  { vm_compute. repeat constructor; rewrite ?elem_of_cons, elem_of_nil;
      intros H; repeat (destruct H as [H|H]; [discriminate H|]);
      exact H. }
  split; [reflexivity|]. split; [reflexivity|]. split; [exact Hdraws|].
  apply (serve_client_ids_distinct demo_String demo_TypeError demo_parse
           saving_store save_record 60 demo_requests demo_world);
    [reflexivity | reflexivity | exact Hdraws].
Defined.

(** A store that fails: 500, the fixed text, one console entry. *)
Lemma route_status_and_console_witness :
  let run := demo_register failing_store 60 public_request demo_world in
  let out := demo_route failing_store 60 public_request demo_world in
  status (fst out) = 500
  ∧ (status (fst out) = 201 ∨ status (fst out) = 400
     ∨ status (fst out) = 500)
  ∧ (status (fst out) = 500 ↔ ∃ e, fst run = Throw e)
  ∧ (status (fst out) = 500 →
     body (fst out) = TextBody "Internal Server Error"
     ∧ length (console (snd out)) = S (length (console demo_world)))
  ∧ (status (fst out) ≠ 500 →
     (∃ result, fst run = Normal result ∧ body (fst out) = JsonBody result)
     ∧ console (snd out) = console demo_world).
Proof.
  intros run out. split; [reflexivity|].
  exact (route_status_and_console demo_String demo_TypeError demo_parse
           failing_store 60 public_request demo_world).
Defined.
